(** * Duplicate-counting prevention tracker

    A shallow embedding of the tracker documented for
    [python-algorithm/people_counter_api.py]: the permanent set
    [counted_person_ids], the transient dictionary [tracked_people_gender],
    the three tallies [male_count], [female_count] and [count_p], the
    duplicate-prevention block, the bounding-box colour choice and the
    per-frame cleanup. *)

From Stdlib Require Import ZArith QArith Lia.
From stdpp Require Import gmap strings list fin_maps fin_sets.

Local Open Scope string_scope.
Local Open Scope Z_scope.

(** ** Data model *)

(** The value stored per person id in [tracked_people_gender]:
    [{'gender': str, 'confidence': float, 'counted': bool,
      'first_seen_frame': int}].  The confidence is a Python float; it is
    only stored and read back, so it is carried as a rational. *)
Record PersonInfo := mkPersonInfo {
  gender : string;
  confidence : Q;
  counted : bool;
  first_seen_frame : Z
}.

(** The tracker variables of the detection session.  Python integers are
    unbounded, hence [Z]. *)
Record Tracker := mkTracker {
  counted_person_ids : gset string;
  tracked_people_gender : gmap string PersonInfo;
  male_count : Z;
  female_count : Z;
  count_p : Z
}.

(** The classifier yields a gender prediction, MALE or FEMALE, together
    with a confidence score; FEMALE has index 0 and MALE index 1. *)
Inductive Gender := FEMALE | MALE.

Definition gender_index (g : Gender) : Z :=
  match g with FEMALE => 0 | MALE => 1 end.

Definition gender_label (g : Gender) : string :=
  match g with FEMALE => "FEMALE" | MALE => "MALE" end.

Record Classification := mkClassification {
  cls_gender : Gender;
  cls_confidence : Q
}.

(** Python truthiness of [person_gender], which is [None] or a string. *)
Definition truthy (person_gender : option string) : bool :=
  match person_gender with
  | None => false
  | Some s => negb (String.eqb s "")
  end.

(** ** Tracker initialisation *)

(** Modelled from the spec: the initialisation of the three tallies is not
    part of the documented excerpts (only [counted_person_ids = set()] and
    [tracked_people_gender = {}] are); the scenarios start every tally
    at zero. *)
Definition initial_tracker : Tracker :=
  {| counted_person_ids := ∅;
     tracked_people_gender := ∅;
     male_count := 0;
     female_count := 0;
     count_p := 0 |}.

(** ** Duplicate prevention check *)

(** The body of the [if]: tally by index, mark the id as counted, bump the
    total and store the gender info.  The frame-local display flag
    [gender_classified] is not tracker state and is left out. *)
Definition count_person (st : Tracker) (id_obj : string) (person_gender : string)
    (gender_idx : Z) (conf : Q) (frame_count : Z) : Tracker :=
  let male_count' :=
    if gender_idx =? 1 then male_count st + 1 else male_count st in
  let female_count' :=
    if gender_idx =? 1 then female_count st
    else if gender_idx =? 0 then female_count st + 1 else female_count st in
  {| counted_person_ids := {[id_obj]} ∪ counted_person_ids st;
     tracked_people_gender :=
       <[id_obj := {| gender := person_gender;
                      confidence := conf;
                      counted := true;
                      first_seen_frame := frame_count |}]>
         (tracked_people_gender st);
     male_count := male_count';
     female_count := female_count';
     count_p := count_p st + 1 |}.

(** [if id_obj not in counted_person_ids and person_gender: ...].  Under the
    guard [person_gender] is a non-empty string, so the default is never
    the value stored. *)
Definition duplicate_prevention_check (st : Tracker) (id_obj : string)
    (person_gender : option string) (gender_idx : Z) (conf : Q)
    (frame_count : Z) : Tracker :=
  if negb (bool_decide (id_obj ∈ counted_person_ids st)) && truthy person_gender
  then count_person st id_obj (default "" person_gender) gender_idx conf frame_count
  else st.

(** Modelled from the spec: the code for the "YES" arm of the flow diagram
    ("Skip counting - Update gender info - Show as counted") is not among
    the documented excerpts.  For an id that is already counted, the label
    and confidence of its record are replaced by the latest observation,
    its [counted] flag and first-seen frame are kept, and no tally is
    touched; a record that was retired by the cleanup is created again with
    [counted = True]. *)
Definition update_gender_info (st : Tracker) (id_obj : string)
    (person_gender : string) (conf : Q) (frame_count : Z) : Tracker :=
  let info :=
    match tracked_people_gender st !! id_obj with
    | Some old => {| gender := person_gender;
                     confidence := conf;
                     counted := counted old;
                     first_seen_frame := first_seen_frame old |}
    | None => {| gender := person_gender;
                 confidence := conf;
                 counted := true;
                 first_seen_frame := frame_count |}
    end in
  {| counted_person_ids := counted_person_ids st;
     tracked_people_gender := <[id_obj := info]> (tracked_people_gender st);
     male_count := male_count st;
     female_count := female_count st;
     count_p := count_p st |}.

(** Step 4 of the flow diagram: the check on [counted_person_ids] selects
    between counting the person and updating the gender info. *)
Definition process_person (st : Tracker) (id_obj : string)
    (person_gender : option string) (gender_idx : Z) (conf : Q)
    (frame_count : Z) : Tracker :=
  if bool_decide (id_obj ∈ counted_person_ids st) && truthy person_gender
  then update_gender_info st id_obj (default "" person_gender) conf frame_count
  else duplicate_prevention_check st id_obj person_gender gender_idx conf frame_count.

(** [observe(identity, classificationResult, frameNumber)]: the classifier
    result, when there is one, fixes [person_gender], [gender_idx] and
    [confidence]; without one [person_gender] is [None]. *)
Definition observe (st : Tracker) (identity : string)
    (classificationResult : option Classification) (frameNumber : Z) : Tracker :=
  match classificationResult with
  | Some c =>
      process_person st identity (Some (gender_label (cls_gender c)))
        (gender_index (cls_gender c)) (cls_confidence c) frameNumber
  | None => process_person st identity None 0 0 frameNumber
  end.

(** ** Visual indicators *)

(** [id_obj in counted_person_ids] *)
Definition isCounted (st : Tracker) (id_obj : string) : bool :=
  bool_decide (id_obj ∈ counted_person_ids st).

(** The bounding-box colour (BGR): green for already counted, red for a
    new detection. *)
Definition color (st : Tracker) (id_obj : string) : Z * Z * Z :=
  if bool_decide (id_obj ∈ counted_person_ids st) then (0, 255, 0) else (0, 0, 255).

Inductive Status := Uncounted | Counted.

Definition status (st : Tracker) (id_obj : string) : Status :=
  if bool_decide (id_obj ∈ counted_person_ids st) then Counted else Uncounted.

(** ** Cleanup *)

(** First loop: collect the tracked ids that are no longer in frame. *)
Definition ids_to_remove (tracked : gmap string PersonInfo)
    (current_tracked_ids : gset string) : list string :=
  filter (λ tracked_id, tracked_id ∉ current_tracked_ids) (map_to_list tracked).*1.

(** Second loop: [if tracked_id in tracked_people_gender: del ...]. *)
Fixpoint remove_ids (ids : list string) (tracked : gmap string PersonInfo)
    : gmap string PersonInfo :=
  match ids with
  | [] => tracked
  | tracked_id :: rest =>
      remove_ids rest
        (if bool_decide (tracked_id ∈ dom tracked)
         then delete tracked_id tracked else tracked)
  end.

(** [counted_person_ids] is not cleared. *)
Definition cleanup (st : Tracker) (current_tracked_ids : gset string) : Tracker :=
  {| counted_person_ids := counted_person_ids st;
     tracked_people_gender :=
       remove_ids (ids_to_remove (tracked_people_gender st) current_tracked_ids)
                  (tracked_people_gender st);
     male_count := male_count st;
     female_count := female_count st;
     count_p := count_p st |}.

Definition reconcileActive (st : Tracker) (currentFrameIdentitySet : gset string)
    : Tracker :=
  cleanup st currentFrameIdentitySet.

(** ** Sessions *)

Inductive Event :=
| Observe (identity : string) (classificationResult : option Classification)
    (frameNumber : Z)
| ReconcileActive (currentFrameIdentitySet : gset string).

Definition step (st : Tracker) (ev : Event) : Tracker :=
  match ev with
  | Observe i r f => observe st i r f
  | ReconcileActive s => reconcileActive st s
  end.

Definition run (evs : list Event) (st : Tracker) : Tracker := foldl step st evs.

(** The per-category tallies and the total. *)
Definition category_sum (st : Tracker) : Z := male_count st + female_count st.
Definition total (st : Tracker) : Z := count_p st.

(** How many times a per-category tally moves in the step taken on [ev],
    when [ev] observes identity [i]; and the sum over a session. *)
Definition increments_for (i : string) (st : Tracker) (ev : Event) : nat :=
  match ev with
  | Observe j _ _ =>
      if bool_decide (j = i)
      then (Z.abs_nat (male_count (step st ev) - male_count st)
            + Z.abs_nat (female_count (step st ev) - female_count st))%nat
      else 0%nat
  | ReconcileActive _ => 0%nat
  end.

Fixpoint credits (i : string) (evs : list Event) (st : Tracker) : nat :=
  match evs with
  | [] => 0%nat
  | ev :: rest => (increments_for i st ev + credits i rest (step st ev))%nat
  end.

(** ** The session invariant

    The total agrees with the per-category tallies and with the number of
    counted ids, and every record that is being tracked belongs to a
    counted id and carries [counted = True]. *)
Record tracker_inv (st : Tracker) : Prop := mkTrackerInv {
  inv_total_sum : count_p st = male_count st + female_count st;
  inv_total_size : count_p st = Z.of_nat (size (counted_person_ids st));
  inv_tracked : ∀ id info,
    tracked_people_gender st !! id = Some info →
    id ∈ counted_person_ids st ∧ counted info = true
}.

(** ** Scenarios *)

Definition P1_first : Classification := mkClassification MALE (9 # 10).
Definition P1_again : Classification := mkClassification MALE (95 # 100).
Definition P2_first : Classification := mkClassification FEMALE (8 # 10).
Definition P2_again : Classification := mkClassification FEMALE (99 # 100).
Definition out_of_range : Classification := mkClassification MALE (3 # 2).

Definition scenario_A : Tracker := observe initial_tracker "P1" (Some P1_first) 100.
Definition scenario_B : Tracker := reconcileActive scenario_A ∅.
Definition scenario_C : Tracker := observe scenario_B "P1" (Some P1_again) 300.
Definition scenario_D1 : Tracker := observe initial_tracker "P2" (Some P2_first) 101.
Definition scenario_D2 : Tracker := observe scenario_D1 "P2" (Some P2_again) 102.
Definition scenario_E : Tracker := observe initial_tracker "P3" None 50.

Definition session : list Event :=
  [ Observe "P1" (Some P1_first) 100;
    Observe "P2" (Some P2_first) 101;
    Observe "P2" (Some P2_again) 102;
    Observe "P3" None 103;
    ReconcileActive {["P2"]};
    Observe "P1" (Some P1_again) 300 ].

(** ** The frame loop on the documented blocks alone

    One pass of the frame loop runs the duplicate-prevention block for each
    detected person, with whatever values the frame-local variables hold,
    and the cleanup block once the tracked ids of the frame are known.
    Only the two documented blocks are composed here; the arm of the flow
    diagram that updates the gender info of an already counted id is part
    of [process_person] and of [run], not of this loop. *)
Inductive FrameOp :=
| CheckPerson (id_obj : string) (person_gender : option string)
    (gender_idx : Z) (conf : Q) (frame_count : Z)
| Cleanup (current_tracked_ids : gset string).

Definition frame_op (st : Tracker) (op : FrameOp) : Tracker :=
  match op with
  | CheckPerson id_obj person_gender gender_idx conf frame_count =>
      duplicate_prevention_check st id_obj person_gender gender_idx conf frame_count
  | Cleanup current_tracked_ids => cleanup st current_tracked_ids
  end.

Definition frame_loop (ops : list FrameOp) (st : Tracker) : Tracker :=
  foldl frame_op st ops.

(** The index is one of the two the tally knows. *)
Definition recognised_index (op : FrameOp) : Prop :=
  match op with
  | CheckPerson _ _ gender_idx _ _ => gender_idx = 0 ∨ gender_idx = 1
  | Cleanup _ => True
  end.

(** What the blocks keep true, whatever index and label they are given. *)
Record blocks_inv (st : Tracker) : Prop := mkBlocksInv {
  binv_size : count_p st = Z.of_nat (size (counted_person_ids st));
  binv_male : 0 ≤ male_count st;
  binv_female : 0 ≤ female_count st;
  binv_sum : male_count st + female_count st ≤ count_p st;
  binv_tracked : ∀ id info,
    tracked_people_gender st !! id = Some info →
    id ∈ counted_person_ids st ∧ counted info = true ∧ gender info ≠ ""
}.

Definition frames : list FrameOp :=
  [ CheckPerson "ID0" (Some "MALE") 1 (95 # 100) 100;
    CheckPerson "ID1" None 0 0 100;
    CheckPerson "ID1" (Some "FEMALE") 0 (8 # 10) 101;
    CheckPerson "ID0" (Some "FEMALE") 0 (6 # 10) 102;
    Cleanup {["ID1"]};
    CheckPerson "ID0" (Some "MALE") 1 (9 # 10) 300 ].

(** The number of iterations of the second cleanup loop at which the guard
    [if tracked_id in tracked_people_gender] is false and the [del] is
    skipped. *)
Fixpoint guard_failures (ids : list string) (tracked : gmap string PersonInfo)
    : nat :=
  match ids with
  | [] => 0%nat
  | tracked_id :: rest =>
      if bool_decide (tracked_id ∈ dom tracked)
      then guard_failures rest (delete tracked_id tracked)
      else S (guard_failures rest tracked)
  end.

(** ** The three arms of [observe] *)

Lemma truthy_gender_label g : truthy (Some (gender_label g)) = true.
Proof. by destruct g. Qed.

Lemma process_person_falsy st id_obj person_gender gender_idx conf frame_count :
  truthy person_gender = false →
  process_person st id_obj person_gender gender_idx conf frame_count = st.
Proof.
  intros Hf. unfold process_person, duplicate_prevention_check.
  rewrite Hf, !andb_false_r. done.
Qed.

Lemma observe_absent st i f : observe st i None f = st.
Proof. by apply process_person_falsy. Qed.

Lemma observe_new st i c f :
  i ∉ counted_person_ids st →
  observe st i (Some c) f =
  count_person st i (gender_label (cls_gender c)) (gender_index (cls_gender c))
    (cls_confidence c) f.
Proof.
  intros Hn. unfold observe, process_person, duplicate_prevention_check.
  rewrite truthy_gender_label, bool_decide_eq_false_2 by done. done.
Qed.

Lemma observe_counted st i c f :
  i ∈ counted_person_ids st →
  observe st i (Some c) f =
  update_gender_info st i (gender_label (cls_gender c)) (cls_confidence c) f.
Proof.
  intros Hin. unfold observe, process_person.
  rewrite truthy_gender_label, bool_decide_eq_true_2 by done. done.
Qed.

(** Case analysis on an observation, as the flow diagram draws it. *)
Lemma observe_cases st i r f :
  (r = None ∧ observe st i r f = st)
  ∨ ((∃ c, r = Some c ∧ (i ∉ counted_person_ids st)
           ∧ observe st i r f =
             count_person st i (gender_label (cls_gender c))
               (gender_index (cls_gender c)) (cls_confidence c) f)
     ∨ (∃ c, r = Some c ∧ i ∈ counted_person_ids st
             ∧ observe st i r f =
               update_gender_info st i (gender_label (cls_gender c))
                 (cls_confidence c) f)).
Proof.
  destruct r as [c|]; [|left; split; [done|apply observe_absent]].
  right. destruct (decide (i ∈ counted_person_ids st)) as [Hin|Hn].
  - right. exists c. by rewrite observe_counted.
  - left. exists c. by rewrite observe_new.
Qed.

Ltac observe_arms st i r f :=
  let c := fresh "c" in
  let Hr := fresh "Hr" in
  let Hmem := fresh "Hmem" in
  let Hobs := fresh "Hobs" in
  destruct (observe_cases st i r f)
    as [[Hr Hobs]|[(c & Hr & Hmem & Hobs)|(c & Hr & Hmem & Hobs)]];
  rewrite Hobs; clear Hobs; simpl.

(** The tally by index has no arm for an index other than 0 and 1: the
    id is marked and the total bumped, and neither category moves.  The
    classifier has two classes, so [observe] never passes such an index. *)
Lemma count_person_other_index st id_obj person_gender gender_idx conf frame_count :
  gender_idx ≠ 1 → gender_idx ≠ 0 →
  male_count (count_person st id_obj person_gender gender_idx conf frame_count)
  = male_count st
  ∧ female_count (count_person st id_obj person_gender gender_idx conf frame_count)
    = female_count st
  ∧ count_p (count_person st id_obj person_gender gender_idx conf frame_count)
    = count_p st + 1.
Proof.
  intros H1 H0. simpl.
  apply Z.eqb_neq in H1, H0. by rewrite H1, H0.
Qed.

(** ** Cleanup, key by key *)

Lemma remove_ids_lookup ids (tracked : gmap string PersonInfo) k :
  remove_ids ids tracked !! k = if decide (k ∈ ids) then None else tracked !! k.
Proof.
  revert tracked. induction ids as [|x ids IH]; intros tracked; cbn [remove_ids].
  - rewrite decide_False; [done|]. by apply not_elem_of_nil.
  - rewrite IH.
    destruct (decide (k ∈ ids)) as [Hk|Hk].
    + rewrite decide_True; [done|]. apply elem_of_cons; by right.
    + destruct (decide (k = x)) as [->|Hne].
      * rewrite (decide_True (P := x ∈ x :: ids)) by (apply elem_of_cons; by left).
        case_bool_decide as Hx; [apply lookup_delete_eq|].
        by apply not_elem_of_dom.
      * rewrite (decide_False (P := k ∈ x :: ids)).
        -- case_bool_decide; [by rewrite lookup_delete_ne|done].
        -- intros Hin. apply elem_of_cons in Hin as [?|?]; done.
Qed.

Lemma elem_of_ids_to_remove (tracked : gmap string PersonInfo) current k :
  k ∈ ids_to_remove tracked current ↔ (k ∉ current) ∧ is_Some (tracked !! k).
Proof.
  unfold ids_to_remove. rewrite list_elem_of_filter, list_elem_of_fmap. split.
  - intros [Hk ([k' v] & -> & Hin)]. split; [done|].
    apply elem_of_map_to_list in Hin. by exists v.
  - intros [Hk [v Hv]]. split; [done|].
    exists (k, v). split; [done|]. by apply elem_of_map_to_list.
Qed.

Lemma cleanup_lookup st current k :
  tracked_people_gender (cleanup st current) !! k =
  if decide (k ∈ current) then tracked_people_gender st !! k else None.
Proof.
  simpl. rewrite remove_ids_lookup.
  destruct (decide (k ∈ ids_to_remove _ _)) as [Hin|Hn].
  - apply elem_of_ids_to_remove in Hin as [Hk _]. by rewrite decide_False.
  - destruct (decide (k ∈ current)) as [Hk|Hk]; [done|].
    destruct (tracked_people_gender st !! k) as [v|] eqn:Hv; [|done].
    exfalso. apply Hn. apply elem_of_ids_to_remove. rewrite Hv. eauto.
Qed.

(** ** What a single step does to each component *)

Lemma run_nil st : run [] st = st.
Proof. done. Qed.

Lemma run_cons ev evs st : run (ev :: evs) st = run evs (step st ev).
Proof. done. Qed.

Lemma run_app evs evs' st : run (evs ++ evs') st = run evs' (run evs st).
Proof. apply foldl_app. Qed.

Lemma step_counted_person_ids st ev :
  counted_person_ids (step st ev) = counted_person_ids st
  ∨ (∃ i c f, ev = Observe i (Some c) f ∧ (i ∉ counted_person_ids st)
              ∧ counted_person_ids (step st ev) = {[i]} ∪ counted_person_ids st).
Proof.
  destruct ev as [i r f|s]; [|by left]. cbn [step].
  observe_arms st i r f; [by left| |by left].
  right. exists i, c, f. by subst r.
Qed.

Lemma step_counted_mono st ev :
  counted_person_ids st ⊆ counted_person_ids (step st ev).
Proof.
  destruct (step_counted_person_ids st ev) as [->|(i & c & f & _ & _ & ->)];
    set_solver.
Qed.

Lemma run_counted_mono evs st :
  counted_person_ids st ⊆ counted_person_ids (run evs st).
Proof.
  revert st. induction evs as [|ev evs IH]; intros st; [done|].
  rewrite run_cons. etrans; [apply step_counted_mono|apply IH].
Qed.

(** The tallies after one step: untouched, or one category and the total
    up by one, and that only when a fresh id is credited. *)
Lemma step_tallies st ev :
  (male_count (step st ev) = male_count st
   ∧ female_count (step st ev) = female_count st
   ∧ count_p (step st ev) = count_p st
   ∧ counted_person_ids (step st ev) = counted_person_ids st)
  ∨ (∃ i c f, ev = Observe i (Some c) f ∧ (i ∉ counted_person_ids st)
      ∧ counted_person_ids (step st ev) = {[i]} ∪ counted_person_ids st
      ∧ count_p (step st ev) = count_p st + 1
      ∧ ((cls_gender c = MALE
          ∧ male_count (step st ev) = male_count st + 1
          ∧ female_count (step st ev) = female_count st)
         ∨ (cls_gender c = FEMALE
            ∧ male_count (step st ev) = male_count st
            ∧ female_count (step st ev) = female_count st + 1))).
Proof.
  destruct ev as [i r f|s]; [|by left]. cbn [step].
  observe_arms st i r f; [by left| |by left].
  right. exists i, c, f. subst r. repeat split; try done.
  destruct (cls_gender c); simpl; [right|left]; done.
Qed.

Lemma step_tallies_mono st ev :
  male_count st ≤ male_count (step st ev)
  ∧ female_count st ≤ female_count (step st ev)
  ∧ count_p st ≤ count_p (step st ev).
Proof.
  destruct (step_tallies st ev)
    as [(-> & -> & -> & _)|(i & c & f & _ & _ & _ & -> & [(_ & -> & ->)|(_ & -> & ->)])];
    lia.
Qed.

Lemma run_tallies_mono evs st :
  male_count st ≤ male_count (run evs st)
  ∧ female_count st ≤ female_count (run evs st)
  ∧ count_p st ≤ count_p (run evs st).
Proof.
  revert st. induction evs as [|ev evs IH]; intros st; [rewrite run_nil; lia|].
  rewrite run_cons. specialize (IH (step st ev)).
  pose proof (step_tallies_mono st ev). lia.
Qed.

Lemma initial_tracker_inv : tracker_inv initial_tracker.
Proof.
  split; [done|done|]. simpl.
  intros id info Hl. by rewrite lookup_empty in Hl.
Qed.

Lemma count_person_inv st i g conf f :
  i ∉ counted_person_ids st →
  tracker_inv st →
  tracker_inv (count_person st i (gender_label g) (gender_index g) conf f).
Proof.
  intros Hn [Hsum Hsize Htr]. split; simpl.
  - destruct g; simpl; lia.
  - rewrite size_union by (by apply disjoint_singleton_l).
    rewrite size_singleton. lia.
  - intros id info Hl. destruct (decide (i = id)) as [->|Hne].
    + rewrite lookup_insert_eq in Hl. injection Hl as <-. simpl.
      split; [|done]. apply elem_of_union_l. by apply elem_of_singleton.
    + rewrite lookup_insert_ne in Hl by done.
      destruct (Htr _ _ Hl). split; [|done]. by apply elem_of_union_r.
Qed.

Lemma update_gender_info_inv st i label conf f :
  i ∈ counted_person_ids st →
  tracker_inv st →
  tracker_inv (update_gender_info st i label conf f).
Proof.
  intros Hin [Hsum Hsize Htr]. split; simpl; [done|done|].
  intros id info Hl. destruct (decide (i = id)) as [->|Hne].
  - rewrite lookup_insert_eq in Hl. injection Hl as <-.
    split; [done|].
    destruct (tracked_people_gender st !! id) as [old|] eqn:Hold; [|done].
    simpl. by destruct (Htr _ _ Hold).
  - rewrite lookup_insert_ne in Hl by done. eauto.
Qed.

Lemma cleanup_inv st current : tracker_inv st → tracker_inv (cleanup st current).
Proof.
  intros [Hsum Hsize Htr]. split; [done|done|].
  intros id info Hl. rewrite cleanup_lookup in Hl.
  destruct (decide (id ∈ current)); [|done].
  destruct (Htr _ _ Hl). done.
Qed.

Lemma step_inv st ev : tracker_inv st → tracker_inv (step st ev).
Proof.
  intros Hinv. destruct ev as [i r f|s]; cbn [step].
  - destruct (observe_cases st i r f)
      as [[_ ->]|[(c & _ & Hn & ->)|(c & _ & Hin & ->)]].
    + done.
    + by apply count_person_inv.
    + by apply update_gender_info_inv.
  - by apply cleanup_inv.
Qed.

Lemma run_inv evs st : tracker_inv st → tracker_inv (run evs st).
Proof.
  revert st. induction evs as [|ev evs IH]; intros st Hinv; [done|].
  rewrite run_cons. by apply IH, step_inv.
Qed.

Lemma reachable_inv evs : tracker_inv (run evs initial_tracker).
Proof. apply run_inv, initial_tracker_inv. Qed.

(** ** Crediting *)

Lemma increments_for_counted i st ev :
  i ∈ counted_person_ids st → increments_for i st ev = 0%nat.
Proof.
  intros Hin. destruct ev as [j r f|s]; [|done]. unfold increments_for.
  case_bool_decide as Hj; [subst j|done].
  destruct (step_tallies st (Observe i r f))
    as [(-> & -> & _)|(i' & c & f' & Hev & Hn & _)].
  - by rewrite !Z.sub_diag.
  - injection Hev as -> _ _. done.
Qed.

Lemma increments_for_fresh i st c f :
  i ∉ counted_person_ids st →
  increments_for i st (Observe i (Some c) f) = 1%nat.
Proof.
  intros Hn. unfold increments_for. rewrite bool_decide_eq_true_2 by done.
  cbn [step]. rewrite observe_new by done.
  destruct (cls_gender c); simpl;
    rewrite ?Z.sub_diag, ?Z.add_simpl_l; done.
Qed.

Lemma increments_for_bound i st ev :
  increments_for i st ev = 0%nat
  ∨ (increments_for i st ev = 1%nat ∧ i ∈ counted_person_ids (step st ev)).
Proof.
  destruct (decide (i ∈ counted_person_ids st)) as [Hin|Hn].
  { left. by apply increments_for_counted. }
  destruct ev as [j r f|s]; [|by left].
  destruct (decide (j = i)) as [->|Hne].
  - destruct r as [c|].
    + right. split; [by apply increments_for_fresh|].
      cbn [step]. rewrite observe_new by done. simpl. set_solver.
    + left. unfold increments_for. cbn [step]. rewrite observe_absent.
      rewrite !Z.sub_diag. by case_bool_decide.
  - left. unfold increments_for. by rewrite bool_decide_eq_false_2.
Qed.

Lemma credits_counted i evs st :
  i ∈ counted_person_ids st → credits i evs st = 0%nat.
Proof.
  revert st. induction evs as [|ev evs IH]; intros st Hin; [done|].
  cbn [credits]. rewrite increments_for_counted by done.
  rewrite IH; [done|]. by apply step_counted_mono.
Qed.

Lemma credits_le_1 i evs st : (credits i evs st ≤ 1)%nat.
Proof.
  revert st. induction evs as [|ev evs IH]; intros st; cbn [credits]; [lia|].
  destruct (increments_for_bound i st ev) as [->|[-> Hin]].
  - apply IH.
  - rewrite credits_counted by done. lia.
Qed.

(** ** Scenarios A to E *)

Example scenario_A_counts :
  male_count scenario_A = 1 ∧ total scenario_A = 1
  ∧ isCounted scenario_A "P1" = true.
Proof. by vm_compute. Qed.

Example scenario_B_retired :
  tracked_people_gender scenario_B !! "P1" = None
  ∧ isCounted scenario_B "P1" = true
  ∧ male_count scenario_B = 1 ∧ total scenario_B = 1.
Proof. by vm_compute. Qed.

Example scenario_C_not_recounted :
  male_count scenario_C = 1 ∧ female_count scenario_C = 0
  ∧ total scenario_C = 1
  ∧ counted <$> tracked_people_gender scenario_C !! "P1" = Some true.
Proof. by vm_compute. Qed.

Example scenario_D_latest :
  female_count scenario_D1 = 1 ∧ female_count scenario_D2 = 1
  ∧ total scenario_D2 = 1
  ∧ confidence <$> tracked_people_gender scenario_D2 !! "P2" = Some (99 # 100)%Q.
Proof. by vm_compute. Qed.

Example scenario_E_nothing :
  scenario_E = initial_tracker ∧ isCounted scenario_E "P3" = false.
Proof. by vm_compute. Qed.

Example session_end :
  male_count (run session initial_tracker) = 1
  ∧ female_count (run session initial_tracker) = 1
  ∧ count_p (run session initial_tracker) = 2
  ∧ credits "P2" session initial_tracker = 1%nat
  ∧ elements (dom (tracked_people_gender (run session initial_tracker)))
    ≡ₚ ["P1"; "P2"].
Proof. by vm_compute. Qed.

(** ** The properties of the tracker *)

(** C1 (at-most-once counting).  For every identity [i], every session
    [evs] and every tracker state, the per-category tallies move at most
    once on account of [i].  An observation of [i] that carries a
    classification while [i] is not yet in [counted_person_ids] moves
    exactly one of the two tallies, by one, and from then on no observation
    of [i] moves a tally; the same holds from any state in which [i] is
    already counted. *)
Theorem at_most_once_counting (i : string) (evs : list Event) (st : Tracker)
    (c : Classification) (f : Z) :
  (credits i evs st ≤ 1)%nat
  ∧ (i ∉ counted_person_ids st →
       increments_for i st (Observe i (Some c) f) = 1%nat
       ∧ ((male_count (observe st i (Some c) f) = male_count st + 1
           ∧ female_count (observe st i (Some c) f) = female_count st)
          ∨ (male_count (observe st i (Some c) f) = male_count st
             ∧ female_count (observe st i (Some c) f) = female_count st + 1))
       ∧ credits i evs (observe st i (Some c) f) = 0%nat)
  ∧ (i ∈ counted_person_ids st → credits i evs st = 0%nat).
Proof.
  split; [apply credits_le_1|]. split; [|apply credits_counted].
  intros Hn. split; [by apply increments_for_fresh|]. split.
  - rewrite observe_new by done.
    destruct (cls_gender c); simpl; [right|left]; done.
  - apply credits_counted. rewrite observe_new by done. simpl.
    apply elem_of_union_l. by apply elem_of_singleton.
Qed.

Lemma at_most_once_counting_witness :
  (credits "P2" session initial_tracker ≤ 1)%nat
  ∧ increments_for "P2" initial_tracker (Observe "P2" (Some P2_first) 101) = 1%nat
  ∧ credits "P2" session scenario_D1 = 0%nat.
Proof.
  destruct (at_most_once_counting "P2" session initial_tracker P2_first 101)
    as (Hle & Hfresh & _).
  destruct (at_most_once_counting "P2" session scenario_D1 P2_again 102)
    as (_ & _ & Hcounted).
  split; [exact Hle|]. split.
  - apply Hfresh. apply not_elem_of_empty.
  - apply Hcounted. apply (bool_decide_unpack _). vm_compute. exact I.
Defined.

(** C2 (idempotence of isCounted).  After an observation of [i] that carries
    a classification, [isCounted i] is true, and it stays true after any
    further session of observations and reconciliations: no operation takes
    an element out of [counted_person_ids]. *)
Theorem isCounted_is_permanent (st : Tracker) (i : string) (c : Classification)
    (f : Z) (evs : list Event) :
  isCounted (observe st i (Some c) f) i = true
  ∧ isCounted (run evs (observe st i (Some c) f)) i = true
  ∧ counted_person_ids st ⊆ counted_person_ids (run evs st).
Proof.
  assert (i ∈ counted_person_ids (observe st i (Some c) f)) as Hin.
  { destruct (decide (i ∈ counted_person_ids st)) as [Hi|Hn].
    - by rewrite observe_counted.
    - rewrite observe_new by done. simpl.
      apply elem_of_union_l. by apply elem_of_singleton. }
  split; [by apply bool_decide_eq_true_2|]. split; [|apply run_counted_mono].
  apply bool_decide_eq_true_2. by apply run_counted_mono.
Qed.

(** C3 (total invariant).  In every state reached from the initial tracker
    by observations and reconciliations, the total [count_p] is the sum of
    the per-category tallies; and along any session, from any state, no
    tally and no total ever decreases. *)
Theorem total_is_sum_and_tallies_grow (evs evs' : list Event) (st : Tracker) :
  total (run evs initial_tracker) = category_sum (run evs initial_tracker)
  ∧ male_count st ≤ male_count (run evs' st)
  ∧ female_count st ≤ female_count (run evs' st)
  ∧ total st ≤ total (run evs' st).
Proof.
  split; [apply (inv_total_sum _ (reachable_inv evs))|].
  apply run_tallies_mono.
Qed.

(** C4 (memory bound).  After [reconcileActive st S] every key of
    [tracked_people_gender] belongs to [S], every record whose key is
    outside [S] is gone, and [counted_person_ids] is the same set as
    before. *)
Theorem reconcileActive_bounds_tracked (st : Tracker) (S : gset string) :
  dom (tracked_people_gender (reconcileActive st S)) ⊆ S
  ∧ (∀ id, id ∉ S → tracked_people_gender (reconcileActive st S) !! id = None)
  ∧ counted_person_ids (reconcileActive st S) = counted_person_ids st.
Proof.
  unfold reconcileActive. split; [|split; [|done]].
  - intros id Hid. apply elem_of_dom in Hid as [info Hl].
    rewrite cleanup_lookup in Hl. by destruct (decide (id ∈ S)).
  - intros id Hid. rewrite cleanup_lookup. by rewrite decide_False.
Qed.

Lemma reconcileActive_bounds_tracked_witness :
  tracked_people_gender (reconcileActive scenario_A {["P2"]}) !! "P1" = None.
Proof.
  destruct (reconcileActive_bounds_tracked scenario_A {["P2"]}) as (_ & Hgone & _).
  apply Hgone. apply not_elem_of_singleton. discriminate.
Defined.

(** C5 (already counted).  For an identity that is already in
    [counted_person_ids], an observation with a classification leaves the
    three tallies and the counted set as they were; afterwards the identity
    has a record whose label and confidence are those just observed, whose
    [counted] flag is that of the record it replaces, and is [True] when
    there was none. *)
Theorem observe_counted_updates_record (st : Tracker) (i : string)
    (c : Classification) (f : Z) :
  i ∈ counted_person_ids st →
  male_count (observe st i (Some c) f) = male_count st
  ∧ female_count (observe st i (Some c) f) = female_count st
  ∧ count_p (observe st i (Some c) f) = count_p st
  ∧ counted_person_ids (observe st i (Some c) f) = counted_person_ids st
  ∧ ∃ info,
      tracked_people_gender (observe st i (Some c) f) !! i = Some info
      ∧ gender info = gender_label (cls_gender c)
      ∧ confidence info = cls_confidence c
      ∧ counted info =
        from_option counted true (tracked_people_gender st !! i).
Proof.
  intros Hin. rewrite observe_counted by done. simpl.
  do 4 (split; [done|]). eexists. rewrite lookup_insert_eq.
  split; [done|]. by destruct (tracked_people_gender st !! i).
Qed.

Lemma observe_counted_updates_record_witness :
  ∃ info,
    tracked_people_gender scenario_D2 !! "P2" = Some info
    ∧ gender info = "FEMALE"
    ∧ confidence info = (99 # 100)%Q
    ∧ counted info = true.
Proof.
  destruct (observe_counted_updates_record scenario_D1 "P2" P2_again 102)
    as (_ & _ & _ & _ & info & Hl & Hg & Hc & Hflag).
  - apply (bool_decide_unpack _). vm_compute. exact I.
  - exists info. split; [exact Hl|]. split; [exact Hg|]. split; [exact Hc|].
    rewrite Hflag. reflexivity.
Defined.

(** C6 (absent classification).  An observation without a classification
    returns the tracker it was given: counted set, tallies and every record
    are as before and no record is created.  In the code this is the guard
    [... and person_gender]: whenever [person_gender] is falsy, whatever the
    other frame-local values are, nothing is changed. *)
Theorem observe_absent_changes_nothing (st : Tracker) (i : string) (f : Z)
    (person_gender : option string) (gender_idx : Z) (conf : Q) :
  observe st i None f = st
  ∧ (truthy person_gender = false →
     process_person st i person_gender gender_idx conf f = st
     ∧ duplicate_prevention_check st i person_gender gender_idx conf f = st).
Proof.
  split; [apply observe_absent|]. intros Hf.
  split; [by apply process_person_falsy|].
  unfold duplicate_prevention_check. by rewrite Hf, andb_false_r.
Qed.

Lemma observe_absent_changes_nothing_witness :
  observe scenario_A "P1" None 150 = scenario_A
  ∧ process_person scenario_A "P3" (Some "") 1 (1 # 2) 150 = scenario_A.
Proof.
  destruct (observe_absent_changes_nothing scenario_A "P1" 150 (Some "") 1 (1 # 2))
    as [Hnone _].
  destruct (observe_absent_changes_nothing scenario_A "P3" 150 (Some "") 1 (1 # 2))
    as [_ Hfalsy].
  split; [exact Hnone|]. apply Hfalsy. reflexivity.
Defined.

(** C7, as the code has it.  The duplicate-prevention block validates
    nothing and has no error result: for an identity that is not yet
    counted, a classification with a recognised category is credited
    whatever its confidence is, inside [0,1] or outside.  The identity
    enters [counted_person_ids], the total and the tally of its category go
    up by one, and the record is stored with the confidence as given. *)
Theorem observe_credits_any_confidence (st : Tracker) (i : string)
    (g : Gender) (conf : Q) (f : Z) :
  i ∉ counted_person_ids st →
  counted_person_ids (observe st i (Some (mkClassification g conf)) f)
  = {[i]} ∪ counted_person_ids st
  ∧ count_p (observe st i (Some (mkClassification g conf)) f) = count_p st + 1
  ∧ male_count (observe st i (Some (mkClassification g conf)) f)
    = male_count st + match g with MALE => 1 | FEMALE => 0 end
  ∧ female_count (observe st i (Some (mkClassification g conf)) f)
    = female_count st + match g with MALE => 0 | FEMALE => 1 end
  ∧ tracked_people_gender (observe st i (Some (mkClassification g conf)) f) !! i
    = Some {| gender := gender_label g; confidence := conf;
              counted := true; first_seen_frame := f |}.
Proof.
  intros Hn. rewrite observe_new by done. simpl.
  split; [done|]. split; [done|]. split; [|split].
  - destruct g; simpl; lia.
  - destruct g; simpl; lia.
  - apply lookup_insert_eq.
Qed.

Lemma observe_credits_any_confidence_witness :
  (1 < 3 # 2)%Q
  ∧ count_p (observe initial_tracker "P1" (Some (mkClassification MALE (3 # 2))) 100)
    = count_p initial_tracker + 1
  ∧ tracked_people_gender
      (observe initial_tracker "P1" (Some (mkClassification MALE (3 # 2))) 100)
      !! "P1"
    = Some {| gender := "MALE"; confidence := 3 # 2;
              counted := true; first_seen_frame := 100 |}.
Proof.
  destruct (observe_credits_any_confidence initial_tracker "P1" MALE (3 # 2) 100)
    as (_ & Htotal & _ & _ & Hrecord).
  - apply not_elem_of_empty.
  - split; [reflexivity|]. split; [exact Htotal|exact Hrecord].
Defined.

(** C7, as the specification states it, fails: a classification whose
    confidence is 1.5 is not rejected, and the call changes the counted
    set, a tally, the total and the tracked records. *)
Lemma observe_out_of_range_mutates :
  (1 < cls_confidence out_of_range)%Q
  ∧ observe initial_tracker "P1" (Some out_of_range) 100 ≠ initial_tracker
  ∧ isCounted (observe initial_tracker "P1" (Some out_of_range) 100) "P1" = true
  ∧ male_count (observe initial_tracker "P1" (Some out_of_range) 100) = 1
  ∧ confidence <$>
      tracked_people_gender (observe initial_tracker "P1" (Some out_of_range) 100)
        !! "P1" = Some (3 # 2)%Q.
Proof.
  split; [reflexivity|]. split; [|by vm_compute].
  intros Heq. apply (f_equal male_count) in Heq. vm_compute in Heq. discriminate.
Qed.

(** C8 (never-seen identity).  For an identity that is neither in
    [counted_person_ids] nor in [tracked_people_gender], [isCounted] is
    false, [status] is uncounted and the box is drawn red.  Both queries
    are total functions of the tracker and return no tracker, so they raise
    nothing and change nothing. *)
Theorem never_seen_is_uncounted (st : Tracker) (i : string) :
  i ∉ counted_person_ids st →
  tracked_people_gender st !! i = None →
  isCounted st i = false ∧ status st i = Uncounted ∧ color st i = (0, 0, 255).
Proof.
  intros Hn _. unfold isCounted, status, color.
  by rewrite bool_decide_eq_false_2.
Qed.

Lemma never_seen_is_uncounted_witness :
  isCounted scenario_A "P3" = false ∧ status scenario_A "P3" = Uncounted
  ∧ color scenario_A "P3" = (0, 0, 255).
Proof.
  apply (never_seen_is_uncounted scenario_A "P3").
  - apply (bool_decide_unpack _). vm_compute. exact I.
  - vm_compute. reflexivity.
Defined.

(** C9 (total and cardinality).  In every state reached from the initial
    tracker the total [count_p] is the number of elements of
    [counted_person_ids]; a single step either leaves both alone or adds
    one fresh id and one to the total. *)
Theorem total_is_size_of_counted (evs : list Event) (ev : Event) :
  total (run evs initial_tracker)
  = Z.of_nat (size (counted_person_ids (run evs initial_tracker)))
  ∧ ((count_p (step (run evs initial_tracker) ev) = count_p (run evs initial_tracker)
      ∧ counted_person_ids (step (run evs initial_tracker) ev)
        = counted_person_ids (run evs initial_tracker))
     ∨ (∃ i, (i ∉ counted_person_ids (run evs initial_tracker))
          ∧ counted_person_ids (step (run evs initial_tracker) ev)
            = {[i]} ∪ counted_person_ids (run evs initial_tracker)
          ∧ count_p (step (run evs initial_tracker) ev)
            = count_p (run evs initial_tracker) + 1)).
Proof.
  split; [apply (inv_total_size _ (reachable_inv evs))|].
  destruct (step_tallies (run evs initial_tracker) ev)
    as [(_ & _ & Hp & Hs)|(i & c & f & _ & Hn & Hs & Hp & _)].
  - by left.
  - right. by exists i.
Qed.




(** ** More on the cleanup block *)

Lemma cleanup_dom st current :
  dom (tracked_people_gender (cleanup st current))
  = dom (tracked_people_gender st) ∩ current.
Proof.
  apply set_eq. intros k. rewrite elem_of_intersection, !elem_of_dom.
  rewrite cleanup_lookup. destruct (decide (k ∈ current)) as [Hk|Hk].
  - tauto.
  - split; [by intros [? ?]|tauto].
Qed.

Lemma Tracker_eq (st st' : Tracker) :
  counted_person_ids st = counted_person_ids st' →
  tracked_people_gender st = tracked_people_gender st' →
  male_count st = male_count st' →
  female_count st = female_count st' →
  count_p st = count_p st' →
  st = st'.
Proof. destruct st, st'; simpl; intros; by subst. Qed.

(** X1.  The cleanup keeps the record of every id that is still in frame
    exactly as it was, drops every other record, and touches neither the
    counted set nor a tally: the dictionary afterwards is the old one
    restricted to the current ids. *)
Theorem cleanup_keeps_ids_in_frame (st : Tracker) (current : gset string)
    (id : string) :
  tracked_people_gender (cleanup st current) !! id
  = (if decide (id ∈ current) then tracked_people_gender st !! id else None)
  ∧ dom (tracked_people_gender (cleanup st current))
    = dom (tracked_people_gender st) ∩ current
  ∧ male_count (cleanup st current) = male_count st
  ∧ female_count (cleanup st current) = female_count st
  ∧ count_p (cleanup st current) = count_p st.
Proof.
  split; [apply cleanup_lookup|]. split; [apply cleanup_dom|done].
Qed.

(** X2.  Two cleanups in a row amount to one cleanup with the ids common to
    both sets; in particular a second cleanup with the same set changes
    nothing. *)
Theorem cleanup_cleanup (st : Tracker) (current current' : gset string) :
  cleanup (cleanup st current) current' = cleanup st (current ∩ current')
  ∧ cleanup (cleanup st current) current = cleanup st current.
Proof.
  assert (∀ s s', cleanup (cleanup st s) s' = cleanup st (s ∩ s')) as Hcomp.
  { intros s s'. apply Tracker_eq; try done.
    apply map_eq. intros k. rewrite !cleanup_lookup.
    destruct (decide (k ∈ s)) as [Hk|Hk], (decide (k ∈ s')) as [Hk'|Hk'].
    - rewrite decide_True; [done|]. by apply elem_of_intersection.
    - rewrite decide_False; [done|]. rewrite elem_of_intersection. tauto.
    - rewrite decide_False; [done|]. rewrite elem_of_intersection. tauto.
    - rewrite decide_False; [done|]. rewrite elem_of_intersection. tauto. }
  split; [apply Hcomp|]. rewrite Hcomp.
  by replace (current ∩ current) with current by (symmetry; apply (idemp_L _)).
Qed.

(** X3.  When every tracked id is still in frame the cleanup returns the
    tracker unchanged. *)
Theorem cleanup_nobody_left (st : Tracker) (current : gset string) :
  dom (tracked_people_gender st) ⊆ current →
  cleanup st current = st.
Proof.
  intros Hsub. apply Tracker_eq; try done.
  apply map_eq. intros k. rewrite cleanup_lookup.
  destruct (decide (k ∈ current)) as [Hk|Hk]; [done|].
  symmetry. apply not_elem_of_dom. intros Hin. apply Hk. by apply Hsub.
Qed.

Lemma cleanup_nobody_left_witness :
  cleanup scenario_A {["P1"; "P7"]} = scenario_A.
Proof.
  apply (cleanup_nobody_left scenario_A {["P1"; "P7"]}).
  apply (bool_decide_unpack _). vm_compute. exact I.
Defined.

Lemma guard_failures_none ids (tracked : gmap string PersonInfo) :
  NoDup ids → (∀ id, id ∈ ids → id ∈ dom tracked) →
  guard_failures ids tracked = 0%nat.
Proof.
  revert tracked. induction ids as [|x ids IH]; intros tracked Hnd Hall; [done|].
  apply NoDup_cons in Hnd as [Hx Hnd]. cbn [guard_failures].
  rewrite bool_decide_eq_true_2 by (apply Hall, elem_of_cons; by left).
  apply IH; [done|]. intros id Hid. rewrite dom_delete_L.
  apply elem_of_difference. split.
  - apply Hall, elem_of_cons. by right.
  - intros Heq. apply elem_of_singleton in Heq as ->. done.
Qed.

(** X4.  The list built by the first cleanup loop has no repetition and
    holds exactly the tracked ids that are not in frame, so the guard of
    the second loop holds at every iteration: no [del] is ever skipped.
    On a list with a repeated or an unknown id the guard does fail. *)
Theorem ids_to_remove_all_present (tracked : gmap string PersonInfo)
    (current : gset string) :
  NoDup (ids_to_remove tracked current)
  ∧ (∀ id, id ∈ ids_to_remove tracked current
           ↔ (id ∉ current) ∧ id ∈ dom tracked)
  ∧ guard_failures (ids_to_remove tracked current) tracked = 0%nat
  ∧ (∀ id, id ∉ dom tracked → guard_failures [id] tracked = 1%nat)
  ∧ (∀ id, id ∈ dom tracked → guard_failures [id; id] tracked = 1%nat).
Proof.
  assert (NoDup (ids_to_remove tracked current)) as Hnd.
  { unfold ids_to_remove. apply NoDup_filter, NoDup_fst_map_to_list. }
  assert (∀ id, id ∈ ids_to_remove tracked current
                ↔ (id ∉ current) ∧ id ∈ dom tracked) as Hmem.
  { intros id. rewrite elem_of_ids_to_remove, elem_of_dom. done. }
  split; [done|]. split; [done|]. split; [|split].
  - apply guard_failures_none; [done|]. intros id Hid. by apply Hmem.
  - intros id Hid. cbn [guard_failures]. by rewrite bool_decide_eq_false_2.
  - intros id Hin. cbn [guard_failures].
    rewrite bool_decide_eq_true_2 by done. cbn [guard_failures].
    rewrite bool_decide_eq_false_2; [done|].
    rewrite dom_delete_L. intros Hd. apply elem_of_difference in Hd as [_ Hd].
    apply Hd. by apply elem_of_singleton.
Qed.

Lemma ids_to_remove_all_present_witness :
  guard_failures ["ID9"] (tracked_people_gender scenario_A) = 1%nat
  ∧ guard_failures ["P1"; "P1"] (tracked_people_gender scenario_A) = 1%nat.
Proof.
  destruct (ids_to_remove_all_present (tracked_people_gender scenario_A) ∅)
    as (_ & _ & _ & Hunknown & Hrepeat).
  split.
  - apply Hunknown. apply (bool_decide_unpack _). vm_compute. exact I.
  - apply Hrepeat. apply (bool_decide_unpack _). vm_compute. exact I.
Defined.

(** X5.  The dictionary never holds more records after the cleanup than
    there are ids in frame, nor more than it held before. *)
Theorem cleanup_size_bound (st : Tracker) (current : gset string) :
  (size (tracked_people_gender (cleanup st current)) ≤ size current)%nat
  ∧ (size (tracked_people_gender (cleanup st current))
     ≤ size (tracked_people_gender st))%nat.
Proof.
  rewrite <- !size_dom, cleanup_dom.
  split; apply subseteq_size.
  - apply intersection_subseteq_r.
  - apply intersection_subseteq_l.
Qed.

(** ** More on the duplicate-prevention block *)

Lemma check_counted st id_obj person_gender gender_idx conf frame_count :
  id_obj ∈ counted_person_ids st →
  duplicate_prevention_check st id_obj person_gender gender_idx conf frame_count
  = st.
Proof.
  intros Hin. unfold duplicate_prevention_check.
  by rewrite bool_decide_eq_true_2.
Qed.

Lemma check_fresh st id_obj person_gender gender_idx conf frame_count :
  id_obj ∉ counted_person_ids st →
  truthy person_gender = true →
  duplicate_prevention_check st id_obj person_gender gender_idx conf frame_count
  = count_person st id_obj (default "" person_gender) gender_idx conf frame_count.
Proof.
  intros Hn Ht. unfold duplicate_prevention_check.
  by rewrite bool_decide_eq_false_2, Ht.
Qed.

Lemma check_cases st id_obj person_gender gender_idx conf frame_count :
  duplicate_prevention_check st id_obj person_gender gender_idx conf frame_count
  = st
  ∨ ((id_obj ∉ counted_person_ids st) ∧ truthy person_gender = true
     ∧ duplicate_prevention_check st id_obj person_gender gender_idx conf
         frame_count
       = count_person st id_obj (default "" person_gender) gender_idx conf
           frame_count).
Proof.
  destruct (decide (id_obj ∈ counted_person_ids st)) as [Hin|Hn].
  { left. by apply check_counted. }
  destruct (truthy person_gender) eqn:Ht.
  - right. by rewrite check_fresh.
  - left. unfold duplicate_prevention_check. by rewrite Ht, andb_false_r.
Qed.

Lemma truthy_default person_gender :
  truthy person_gender = true → default "" person_gender ≠ "".
Proof.
  destruct person_gender as [s|]; [|done]. simpl.
  intros Hs ->. done.
Qed.

(** X6.  Once the block has run for an id with a usable gender, running it
    again for the same id changes nothing at all, whatever gender, index,
    confidence and frame number the second run is given: no tally moves and
    the stored record, first-seen frame included, is the one of the first
    run. *)
Theorem check_twice_is_check_once (st : Tracker) (id_obj : string)
    (person_gender person_gender' : option string) (gender_idx gender_idx' : Z)
    (conf conf' : Q) (frame_count frame_count' : Z) :
  truthy person_gender = true →
  duplicate_prevention_check
    (duplicate_prevention_check st id_obj person_gender gender_idx conf frame_count)
    id_obj person_gender' gender_idx' conf' frame_count'
  = duplicate_prevention_check st id_obj person_gender gender_idx conf frame_count.
Proof.
  intros Ht. apply check_counted.
  destruct (check_cases st id_obj person_gender gender_idx conf frame_count)
    as [Heq|(Hn & _ & ->)].
  - rewrite Heq. unfold duplicate_prevention_check in Heq.
    destruct (decide (id_obj ∈ counted_person_ids st)) as [Hin|Hn]; [done|].
    rewrite bool_decide_eq_false_2, Ht in Heq by done. simpl in Heq.
    rewrite <- Heq. simpl. apply elem_of_union_l. by apply elem_of_singleton.
  - simpl. apply elem_of_union_l. by apply elem_of_singleton.
Qed.

Lemma check_twice_is_check_once_witness :
  duplicate_prevention_check
    (duplicate_prevention_check initial_tracker "ID0" (Some "MALE") 1 (95 # 100) 100)
    "ID0" (Some "FEMALE") 0 (6 # 10) 102
  = duplicate_prevention_check initial_tracker "ID0" (Some "MALE") 1 (95 # 100) 100.
Proof.
  apply (check_twice_is_check_once initial_tracker "ID0" (Some "MALE")
           (Some "FEMALE") 1 0 (95 # 100) (6 # 10) 100 102).
  reflexivity.
Defined.

(** X7.  The block, run for one id, leaves every other id as it was: its
    record is untouched and it is counted afterwards exactly when it was
    counted before. *)
Theorem check_leaves_other_ids (st : Tracker) (id_obj other : string)
    (person_gender : option string) (gender_idx : Z) (conf : Q) (frame_count : Z) :
  other ≠ id_obj →
  tracked_people_gender
    (duplicate_prevention_check st id_obj person_gender gender_idx conf frame_count)
    !! other = tracked_people_gender st !! other
  ∧ isCounted
      (duplicate_prevention_check st id_obj person_gender gender_idx conf frame_count)
      other = isCounted st other.
Proof.
  intros Hne.
  destruct (check_cases st id_obj person_gender gender_idx conf frame_count)
    as [->|(_ & _ & ->)]; [done|]. simpl. split.
  - by rewrite lookup_insert_ne.
  - unfold isCounted. simpl. apply bool_decide_ext.
    rewrite elem_of_union, elem_of_singleton. tauto.
Qed.

Lemma check_leaves_other_ids_witness :
  isCounted
    (duplicate_prevention_check scenario_A "ID5" (Some "FEMALE") 0 (7 # 10) 120)
    "P1" = isCounted scenario_A "P1".
Proof.
  destruct (check_leaves_other_ids scenario_A "ID5" "P1" (Some "FEMALE") 0
              (7 # 10) 120) as [_ Hc].
  - discriminate.
  - exact Hc.
Defined.

(** X8.  For two different ids the order in which the block is run does not
    matter: both orders end in the same tracker. *)
Theorem check_order_irrelevant (st : Tracker) (i j : string)
    (gi gj : option string) (xi xj : Z) (ci cj : Q) (fi fj : Z) :
  i ≠ j →
  duplicate_prevention_check (duplicate_prevention_check st i gi xi ci fi)
    j gj xj cj fj
  = duplicate_prevention_check (duplicate_prevention_check st j gj xj cj fj)
      i gi xi ci fi.
Proof.
  intros Hne.
  assert (∀ (st' : Tracker) (a b : string) g x c f, a ≠ b →
            (b ∈ counted_person_ids
                   (duplicate_prevention_check st' a g x c f)
             ↔ b ∈ counted_person_ids st')) as Hmem.
  { intros st' a b g x c f Hab.
    destruct (check_cases st' a g x c f) as [->|(_ & _ & ->)]; [done|].
    simpl. rewrite elem_of_union, elem_of_singleton. split; [|tauto].
    intros [->|?]; done. }
  unfold duplicate_prevention_check at 1 3.
  rewrite (bool_decide_ext _ _ (Hmem st i j gi xi ci fi Hne)).
  rewrite (bool_decide_ext _ _ (Hmem st j i gj xj cj fj (not_eq_sym Hne))).
  destruct (negb (bool_decide (j ∈ counted_person_ids st)) && truthy gj) eqn:Hj;
    destruct (negb (bool_decide (i ∈ counted_person_ids st)) && truthy gi) eqn:Hi.
  - apply andb_true_iff in Hj as [Hjn Hjt], Hi as [Hin Hit].
    apply negb_true_iff, bool_decide_eq_false in Hjn, Hin.
    rewrite !check_fresh by done.
    apply Tracker_eq; simpl.
    + apply set_eq. intros k. rewrite !elem_of_union. tauto.
    + by apply insert_insert_ne.
    + destruct (xi =? 1), (xj =? 1); lia.
    + destruct (xi =? 1), (xj =? 1), (xi =? 0), (xj =? 0); lia.
    + lia.
  - unfold duplicate_prevention_check. by rewrite ?Hi, ?Hj.
  - unfold duplicate_prevention_check. by rewrite ?Hi, ?Hj.
  - unfold duplicate_prevention_check. by rewrite ?Hi, ?Hj.
Qed.

Lemma check_order_irrelevant_witness :
  duplicate_prevention_check
    (duplicate_prevention_check initial_tracker "ID0" (Some "MALE") 1 (95 # 100) 100)
    "ID1" (Some "FEMALE") 0 (8 # 10) 100
  = duplicate_prevention_check
      (duplicate_prevention_check initial_tracker "ID1" (Some "FEMALE") 0 (8 # 10) 100)
      "ID0" (Some "MALE") 1 (95 # 100) 100.
Proof.
  apply (check_order_irrelevant initial_tracker "ID0" "ID1"). discriminate.
Defined.

(** X9.  When the block counts a person, the total stays in step with the
    two gender tallies exactly when the index is 0 or 1; for any other index
    the total runs ahead of their sum by one more. *)
Theorem check_total_follows_tallies (st : Tracker) (id_obj : string)
    (person_gender : option string) (gender_idx : Z) (conf : Q) (frame_count : Z) :
  id_obj ∉ counted_person_ids st →
  truthy person_gender = true →
  (count_p
     (duplicate_prevention_check st id_obj person_gender gender_idx conf frame_count)
   - category_sum
       (duplicate_prevention_check st id_obj person_gender gender_idx conf frame_count)
   = count_p st - category_sum st
   ↔ gender_idx = 0 ∨ gender_idx = 1)
  ∧ (gender_idx ≠ 0 → gender_idx ≠ 1 →
     count_p
       (duplicate_prevention_check st id_obj person_gender gender_idx conf frame_count)
     - category_sum
         (duplicate_prevention_check st id_obj person_gender gender_idx conf
            frame_count)
     = count_p st - category_sum st + 1).
Proof.
  intros Hn Ht. rewrite check_fresh by done. unfold category_sum. simpl.
  destruct (Z.eqb_spec gender_idx 1) as [->|H1]; simpl.
  - split; [|done]. split; [by right|lia].
  - destruct (Z.eqb_spec gender_idx 0) as [->|H0].
    + split; [|done]. split; [by left|lia].
    + split; [|lia]. split; [lia|]. intros [?|?]; done.
Qed.

Lemma check_total_follows_tallies_witness :
  count_p (duplicate_prevention_check initial_tracker "ID0" (Some "OTHER") 2 (1 # 2) 7)
  - category_sum
      (duplicate_prevention_check initial_tracker "ID0" (Some "OTHER") 2 (1 # 2) 7)
  = count_p initial_tracker - category_sum initial_tracker + 1.
Proof.
  destruct (check_total_follows_tallies initial_tracker "ID0" (Some "OTHER") 2
              (1 # 2) 7) as [_ Hgap].
  - apply not_elem_of_empty.
  - reflexivity.
  - apply Hgap; discriminate.
Defined.

(** X10.  The cleanup and the block can be swapped for an id that is in
    frame: cleaning up after the block gives the tracker that running the
    block after the cleanup gives. *)
Theorem cleanup_check_swap (st : Tracker) (current : gset string)
    (id_obj : string) (person_gender : option string) (gender_idx : Z)
    (conf : Q) (frame_count : Z) :
  id_obj ∈ current →
  cleanup
    (duplicate_prevention_check st id_obj person_gender gender_idx conf frame_count)
    current
  = duplicate_prevention_check (cleanup st current) id_obj person_gender
      gender_idx conf frame_count.
Proof.
  intros Hcur.
  destruct (check_cases st id_obj person_gender gender_idx conf frame_count)
    as [Heq|(Hn & Ht & Heq)]; rewrite Heq.
  - destruct (check_cases (cleanup st current) id_obj person_gender gender_idx
                conf frame_count) as [->|(Hn' & Ht' & _)]; [done|].
    exfalso. simpl in Hn'. unfold duplicate_prevention_check in Heq.
    rewrite bool_decide_eq_false_2, Ht' in Heq by done. simpl in Heq.
    apply (f_equal count_p) in Heq. simpl in Heq. lia.
  - rewrite check_fresh by done.
    apply Tracker_eq; try done.
    apply map_eq. intros k. rewrite cleanup_lookup.
    cbn [tracked_people_gender count_person].
    destruct (decide (k = id_obj)) as [->|Hne].
    + rewrite decide_True by done. by rewrite !lookup_insert_eq.
    + rewrite !lookup_insert_ne by done. by rewrite cleanup_lookup.
Qed.

Lemma cleanup_check_swap_witness :
  cleanup
    (duplicate_prevention_check scenario_A "ID5" (Some "FEMALE") 0 (7 # 10) 120)
    {["ID5"]}
  = duplicate_prevention_check (cleanup scenario_A {["ID5"]}) "ID5"
      (Some "FEMALE") 0 (7 # 10) 120.
Proof.
  apply (cleanup_check_swap scenario_A {["ID5"]} "ID5").
  by apply elem_of_singleton.
Defined.

(** X11.  A person who was counted and then left the frame has no record
    any more but is still counted; when the same id comes back, the block
    changes nothing, whatever it is given, so no tally moves again. *)
Theorem leave_and_return (st : Tracker) (current : gset string)
    (id_obj : string) (person_gender person_gender' : option string)
    (gender_idx gender_idx' : Z) (conf conf' : Q) (frame_count frame_count' : Z) :
  truthy person_gender = true →
  id_obj ∉ current →
  tracked_people_gender
    (cleanup
       (duplicate_prevention_check st id_obj person_gender gender_idx conf
          frame_count) current) !! id_obj = None
  ∧ isCounted
      (cleanup
         (duplicate_prevention_check st id_obj person_gender gender_idx conf
            frame_count) current) id_obj = true
  ∧ duplicate_prevention_check
      (cleanup
         (duplicate_prevention_check st id_obj person_gender gender_idx conf
            frame_count) current)
      id_obj person_gender' gender_idx' conf' frame_count'
    = cleanup
        (duplicate_prevention_check st id_obj person_gender gender_idx conf
           frame_count) current.
Proof.
  intros Ht Hcur.
  assert (id_obj ∈ counted_person_ids
            (duplicate_prevention_check st id_obj person_gender gender_idx conf
               frame_count)) as Hin.
  { destruct (decide (id_obj ∈ counted_person_ids st)) as [Hi|Hn].
    - by rewrite check_counted.
    - rewrite check_fresh by done. simpl.
      apply elem_of_union_l. by apply elem_of_singleton. }
  split; [|split].
  - rewrite cleanup_lookup. by rewrite decide_False.
  - by apply bool_decide_eq_true_2.
  - by apply check_counted.
Qed.

Lemma leave_and_return_witness :
  duplicate_prevention_check
    (cleanup
       (duplicate_prevention_check initial_tracker "ID0" (Some "MALE") 1
          (95 # 100) 100) ∅)
    "ID0" (Some "MALE") 1 (9 # 10) 300
  = cleanup
      (duplicate_prevention_check initial_tracker "ID0" (Some "MALE") 1
         (95 # 100) 100) ∅.
Proof.
  destruct (leave_and_return initial_tracker ∅ "ID0" (Some "MALE") (Some "MALE")
              1 1 (95 # 100) (9 # 10) 100 300) as (_ & _ & Hback).
  - reflexivity.
  - apply not_elem_of_empty.
  - exact Hback.
Defined.

(** ** The frame loop *)

Lemma frame_loop_cons op ops st :
  frame_loop (op :: ops) st = frame_loop ops (frame_op st op).
Proof. done. Qed.

Lemma frame_op_counted_mono st op :
  counted_person_ids st ⊆ counted_person_ids (frame_op st op).
Proof.
  destruct op as [i g x c f|s]; [|done]. cbn [frame_op].
  destruct (check_cases st i g x c f) as [->|(_ & _ & ->)]; [done|].
  simpl. apply union_subseteq_r.
Qed.

Lemma frame_loop_counted_mono ops st :
  counted_person_ids st ⊆ counted_person_ids (frame_loop ops st).
Proof.
  revert st. induction ops as [|op ops IH]; intros st; [done|].
  rewrite frame_loop_cons. etrans; [apply frame_op_counted_mono|apply IH].
Qed.

Lemma initial_blocks_inv : blocks_inv initial_tracker.
Proof.
  split; done.
Qed.

Lemma frame_op_blocks_inv st op : blocks_inv st → blocks_inv (frame_op st op).
Proof.
  intros [Hsize Hm Hf Hsum Htr]. destruct op as [i g x c f|s]; cbn [frame_op].
  - destruct (check_cases st i g x c f) as [->|(Hn & Ht & ->)]; [done|].
    split; simpl.
    + rewrite size_union by (by apply disjoint_singleton_l).
      rewrite size_singleton. lia.
    + destruct (x =? 1); lia.
    + destruct (x =? 1), (x =? 0); lia.
    + destruct (x =? 1), (x =? 0); lia.
    + intros id info Hl. destruct (decide (i = id)) as [->|Hne].
      * rewrite lookup_insert_eq in Hl. injection Hl as <-. simpl.
        split; [apply elem_of_union_l; by apply elem_of_singleton|].
        split; [done|]. by apply truthy_default.
      * rewrite lookup_insert_ne in Hl by done.
        destruct (Htr _ _ Hl) as (? & ? & ?).
        split; [by apply elem_of_union_r|done].
  - split; try done. intros id info Hl. rewrite cleanup_lookup in Hl.
    destruct (decide (id ∈ s)); [|done]. eauto.
Qed.

Lemma frame_loop_blocks_inv ops st : blocks_inv st → blocks_inv (frame_loop ops st).
Proof.
  revert st. induction ops as [|op ops IH]; intros st Hinv; [done|].
  rewrite frame_loop_cons. by apply IH, frame_op_blocks_inv.
Qed.

(** X12.  Whatever indices, labels and confidences the two blocks are fed,
    in any order, starting from the initial tracker: the total is the number
    of counted ids, neither gender tally is negative, and the two tallies
    together never exceed the total. *)
Theorem frame_loop_total_is_counted_ids (ops : list FrameOp) :
  count_p (frame_loop ops initial_tracker)
  = Z.of_nat (size (counted_person_ids (frame_loop ops initial_tracker)))
  ∧ 0 ≤ male_count (frame_loop ops initial_tracker)
  ∧ 0 ≤ female_count (frame_loop ops initial_tracker)
  ∧ category_sum (frame_loop ops initial_tracker)
    ≤ count_p (frame_loop ops initial_tracker).
Proof.
  destruct (frame_loop_blocks_inv ops _ initial_blocks_inv) as [H1 H2 H3 H4 _].
  done.
Qed.

(** X13.  In every tracker the two blocks can reach from the initial one,
    a tracked record belongs to a counted id, is flagged as counted and
    carries a non-empty gender label. *)
Theorem frame_loop_records_well_formed (ops : list FrameOp) (id : string)
    (info : PersonInfo) :
  tracked_people_gender (frame_loop ops initial_tracker) !! id = Some info →
  id ∈ counted_person_ids (frame_loop ops initial_tracker)
  ∧ counted info = true
  ∧ gender info ≠ "".
Proof. apply (binv_tracked _ (frame_loop_blocks_inv ops _ initial_blocks_inv)). Qed.

Lemma frame_loop_records_well_formed_witness :
  "ID1" ∈ counted_person_ids (frame_loop frames initial_tracker)
  ∧ counted (mkPersonInfo "FEMALE" (8 # 10) true 101) = true
  ∧ gender (mkPersonInfo "FEMALE" (8 # 10) true 101) ≠ "".
Proof.
  apply (frame_loop_records_well_formed frames "ID1"). vm_compute. reflexivity.
Defined.

(** X14.  When every index the block is given is 0 or 1, the total equals
    the sum of the two gender tallies in every tracker reached from the
    initial one. *)
Theorem frame_loop_total_is_sum (ops : list FrameOp) :
  Forall recognised_index ops →
  count_p (frame_loop ops initial_tracker)
  = category_sum (frame_loop ops initial_tracker).
Proof.
  assert (∀ st, Forall recognised_index ops →
            count_p st = category_sum st →
            count_p (frame_loop ops st) = category_sum (frame_loop ops st)) as H.
  { induction ops as [|op ops IH]; intros st Hall Hst; [done|].
    apply Forall_cons in Hall as [Hop Hall].
    rewrite frame_loop_cons. apply IH; [done|].
    destruct op as [i g x c f|s]; [|done]. cbn [frame_op].
    destruct (check_cases st i g x c f) as [->|(_ & _ & ->)]; [done|].
    unfold category_sum in *. simpl in *. destruct Hop as [->| ->]; simpl; lia. }
  intros Hall. by apply H.
Qed.

Lemma frame_loop_total_is_sum_witness :
  count_p (frame_loop frames initial_tracker)
  = category_sum (frame_loop frames initial_tracker).
Proof.
  apply (frame_loop_total_is_sum frames).
  unfold frames. repeat apply Forall_cons_2; try apply Forall_nil_2; simpl; auto.
Defined.

(** X15.  An id that is counted keeps its green box for the rest of the
    session: no run of the two blocks takes an id out of the counted set,
    and no tally ever goes down. *)
Theorem counted_stays_green (ops : list FrameOp) (st : Tracker) (id_obj : string) :
  (isCounted st id_obj = true →
   isCounted (frame_loop ops st) id_obj = true
   ∧ color (frame_loop ops st) id_obj = (0, 255, 0))
  ∧ counted_person_ids st ⊆ counted_person_ids (frame_loop ops st)
  ∧ male_count st ≤ male_count (frame_loop ops st)
  ∧ female_count st ≤ female_count (frame_loop ops st)
  ∧ count_p st ≤ count_p (frame_loop ops st).
Proof.
  split; [|split; [apply frame_loop_counted_mono|]].
  - intros Hc. apply bool_decide_eq_true_1 in Hc.
    assert (id_obj ∈ counted_person_ids (frame_loop ops st)) as Hin
      by (by apply frame_loop_counted_mono).
    unfold isCounted, color. by rewrite bool_decide_eq_true_2.
  - revert st. induction ops as [|op ops IH]; intros st; [by cbn; lia|].
    rewrite frame_loop_cons. specialize (IH (frame_op st op)).
    assert (male_count st ≤ male_count (frame_op st op)
            ∧ female_count st ≤ female_count (frame_op st op)
            ∧ count_p st ≤ count_p (frame_op st op)) as Hstep; [|lia].
    destruct op as [i g x c f|s]; cbn [frame_op]; [|by simpl; lia].
    destruct (check_cases st i g x c f) as [->|(_ & _ & ->)]; [lia|].
    simpl. destruct (x =? 1), (x =? 0); lia.
Qed.

Lemma counted_stays_green_witness :
  color (frame_loop frames scenario_A) "P1" = (0, 255, 0).
Proof.
  destruct (counted_stays_green frames scenario_A "P1") as [Hgreen _].
  apply Hgreen. vm_compute. reflexivity.
Defined.
